(** * img-authz-plugin: the request classifier and the authorization decision

    A shallow embedding of [src/main/plugin.go] (and of the two loops of
    [main] that build the whitelists).  Go strings are byte sequences and are
    modelled by [string]; [map[string]bool] is a [gmap string bool]; Go's
    [int] is [Z].  A run-time panic (nil dereference, slice out of range) is an
    explicit outcome, and the standard logger is a piece of state that
    [AuthZReq] appends to. *)

From Stdlib Require Import ZArith Ascii String Lia.
From stdpp Require Import base option list strings gmap.

Local Open Scope Z_scope.

(** ** Outcomes of Go code: a value, or a run-time panic *)

Inductive outcome (A : Type) : Type :=
| Returns (a : A)
| Panics (why : string).
Arguments Returns {A} a.
Arguments Panics {A} why.

#[global] Instance outcome_ret : MRet outcome := @Returns.
#[global] Instance outcome_bind : MBind outcome := fun A B f m =>
  match m with
  | Returns a => f a
  | Panics why => Panics why
  end.

Definition nil_dereference : string :=
  "runtime error: invalid memory address or nil pointer dereference".
Definition slice_out_of_range : string :=
  "runtime error: slice bounds out of range".

(** [p.f] on a pointer [p]: the pointee, or a panic when [p] is nil. *)
Definition deref {A : Type} (p : option A) : outcome A :=
  match p with
  | Some a => Returns a
  | None => Panics nil_dereference
  end.

(** Go's [error] interface value: [None] is [nil]. *)
Definition error : Type := option string.

(** ** Package [strings] (the functions the plugin and [net/url] call) *)

Module strings.

(** [len(s)] *)
Definition len (s : string) : Z := Z.of_nat (String.length s).

(** The bytes of [s] from position [n] on. *)
Fixpoint drop (n : nat) (s : string) : string :=
  match n, s with
  | O, _ => s
  | S n', String _ s' => drop n' s'
  | S _, EmptyString => EmptyString
  end.

(** The first [n] bytes of [s]. *)
Fixpoint take (n : nat) (s : string) : string :=
  match n, s with
  | O, _ => EmptyString
  | S n', String c s' => String c (take n' s')
  | S _, EmptyString => EmptyString
  end.

(** The slice expression [s[lo:hi]]: it panics unless
    [0 <= lo <= hi <= len(s)]. *)
Definition slice (s : string) (lo hi : Z) : outcome string :=
  if (0 <=? lo) && (lo <=? hi) && (hi <=? len s)
  then Returns (take (Z.to_nat (hi - lo)) (drop (Z.to_nat lo) s))
  else Panics slice_out_of_range.

(** [s[lo:]] is [s[lo:len(s)]] and [s[:hi]] is [s[0:hi]]. *)
Definition slice_from (s : string) (lo : Z) : outcome string :=
  slice s lo (len s).
Definition slice_to (s : string) (hi : Z) : outcome string :=
  slice s 0 hi.

(** [HasPrefix(s, prefix)]:
    [len(s) >= len(prefix) && s[:len(prefix)] == prefix] *)
Definition HasPrefix (s prefix : string) : bool :=
  (len prefix <=? len s)
  && String.eqb (take (String.length prefix) s) prefix.

(** [HasSuffix(s, suffix)]:
    [len(s) >= len(suffix) && s[len(s)-len(suffix):] == suffix] *)
Definition HasSuffix (s suffix : string) : bool :=
  (len suffix <=? len s)
  && String.eqb (drop (Z.to_nat (len s - len suffix)) s) suffix.

(** [Index(s, substr)]: the position of the first instance of [substr] in
    [s], or [-1]. *)
Fixpoint Index (s substr : string) : Z :=
  if HasPrefix s substr then 0
  else match s with
       | EmptyString => -1
       | String _ s' =>
           let i := Index s' substr in
           if i =? -1 then -1 else i + 1
       end.

(** [Contains(s, substr)] is [Index(s, substr) >= 0]. *)
Definition Contains (s substr : string) : bool := 0 <=? Index s substr.

(** [Join(elems, sep)] *)
Fixpoint Join (elems : list string) (sep : string) : string :=
  match elems with
  | [] => ""
  | [e] => e
  | e :: rest => e +:+ sep +:+ Join rest sep
  end.

(** The pieces of [s] between the occurrences of the byte [sep], as
    [Split(s, string(sep))] lists them. *)
Fixpoint split_go (sep : ascii) (cur : string) (s : string) : list string :=
  match s with
  | EmptyString => [String.rev cur]
  | String c s' =>
      if Ascii.eqb c sep then String.rev cur :: split_go sep "" s'
      else split_go sep (String c cur) s'
  end.
Definition Split1 (s : string) (sep : ascii) : list string :=
  split_go sep "" s.

End strings.

(** ** Package [net/url]: the data the plugin sees *)

(** [url.URL], with the fields a request target can set.  ([User], [RawPath]
    and the fragment fields are never read by the plugin and are left out.) *)
Record URL : Type := mkURL {
  Scheme : string;
  Opaque : string;
  Host : string;
  Path : string;
  ForceQuery : bool;
  RawQuery : string;
}.

(** [url.Values] is [map[string][]string]. *)
Abbreviation Values := (gmap string (list string)).

(** [func (v Values) Get(key string) string]: the first value of [key], or
    the empty string. *)
Definition Values_Get (v : Values) (key : string) : string :=
  match v !! key with
  | Some (x :: _) => x
  | _ => ""
  end.

(** ** The packages and the run time the plugin is linked with

    [plugin.go] calls into [net/url], [encoding/json], the Docker client and
    iterates over maps, whose order the Go run time leaves unspecified.  The
    plugin is embedded over any implementation of this interface; a reference
    implementation of the [net/url] part follows in [Module url]. *)

(** The one field of [dockercontainer.Config] the plugin reads. *)
Record Config : Type := mkConfig { Image : string }.

Class Platform : Type := {
  (** [url.QueryUnescape(s)] *)
  QueryUnescape : string → string * error;
  (** [url.ParseRequestURI(rawURL)]: a nil pointer comes with every error *)
  ParseRequestURI : string → option URL * error;
  (** [func (u *URL) Query() Values] *)
  Query : URL → Values;
  (** [json.Unmarshal(data, &config)]: the config after the call, and the
      error *)
  json_Unmarshal : string → Config → Config * error;
  (** the keys of a map in the order a [for k := range m] visits them *)
  range_keys : gmap string bool → list string;
  range_keys_perm : ∀ m, range_keys m ≡ₚ (map_to_list m).*1;
  (** [dockerclient.Client], [dockerapi.DefaultVersion] and
      [dockerclient.NewClient(host, version, nil, nil)] *)
  Client : Type;
  DefaultVersion : string;
  NewClient : string → string → option Client * error;
}.

(** ** Package [net/url]: a reference implementation

    It follows the Go sources for request targets without a scheme (the
    origin form ["/path?query"] that the Docker daemon forwards).  What [parse]
    does once [getScheme] has found a scheme is taken as the parameter
    [parse_with_scheme]. *)

Module url.

Definition byte (c : ascii) : Z := Z.of_N (N_of_ascii c).
Definition between (lo hi : ascii) (c : ascii) : bool :=
  (byte lo <=? byte c) && (byte c <=? byte hi).

Definition ishex (c : ascii) : bool :=
  between "0" "9" c || between "a" "f" c || between "A" "F" c.

Definition unhex (c : ascii) : Z :=
  if between "0" "9" c then byte c - byte "0"
  else if between "a" "f" c then byte c - byte "a" + 10
  else if between "A" "F" c then byte c - byte "A" + 10
  else 0.

Inductive encoding : Type := encodePath | encodeQueryComponent.

Definition EscapeError (s : string) : error :=
  Some ("invalid URL escape " +:+ s).

(** [unescape(s, mode)] without its error value: [None] when some ['%'] is
    not followed by two hexadecimal digits.  The Go function validates in a
    first pass and rewrites in a second one; both are done at once here. *)
Fixpoint unescape_bytes (mode : encoding) (s : string) : option string :=
  match s with
  | EmptyString => Some EmptyString
  | String "%" (String a (String b rest)) =>
      if ishex a && ishex b
      then String (ascii_of_N (Z.to_N (Z.lor (Z.shiftl (unhex a) 4) (unhex b))))
             <$> unescape_bytes mode rest
      else None
  | String "%" _ => None
  | String "+" rest =>
      String (match mode with
              | encodeQueryComponent => " "
              | encodePath => "+"
              end)%char <$> unescape_bytes mode rest
  | String c rest => String c <$> unescape_bytes mode rest
  end.

(** [unescape(s, mode)]: on error the string returned is empty. *)
Definition unescape (s : string) (mode : encoding) : string * error :=
  match unescape_bytes mode s with
  | Some t => (t, None)
  | None => ("", EscapeError s)
  end.

Definition QueryUnescape (s : string) : string * error :=
  unescape s encodeQueryComponent.

Definition stringContainsCTLByte (s : string) : bool :=
  existsb (λ c, (byte c <? 32) || (byte c =? 127)) (list_ascii_of_string s).

(** [getScheme(rawURL)], reading [rest = rawURL[i:]]. *)
Fixpoint getScheme_from (rawURL : string) (i : nat) (rest : string)
    : string * string * error :=
  match rest with
  | EmptyString => ("", rawURL, None)
  | String c rest' =>
      if between "a" "z" c || between "A" "Z" c then
        getScheme_from rawURL (S i) rest'
      else if between "0" "9" c || Ascii.eqb c "+" || Ascii.eqb c "-"
              || Ascii.eqb c "." then
        match i with
        | O => ("", rawURL, None)
        | _ => getScheme_from rawURL (S i) rest'
        end
      else if Ascii.eqb c ":" then
        match i with
        | O => ("", "", Some "missing protocol scheme")
        | _ => (strings.take i rawURL, rest', None)
        end
      else ("", rawURL, None)
  end.
Definition getScheme (rawURL : string) : string * string * error :=
  getScheme_from rawURL 0 rawURL.

(** [strings.Cut(s, sep)] *)
Definition Cut (s sep : string) : string * string * bool :=
  let i := strings.Index s sep in
  if 0 <=? i
  then (strings.take (Z.to_nat i) s,
        strings.drop (Z.to_nat (i + strings.len sep)) s, true)
  else (s, "", false).

(** [strings.Count(s, string(c))] *)
Definition Count1 (s : string) (c : ascii) : Z :=
  Z.of_nat (length (filter (λ d, d = c) (list_ascii_of_string s))).

Section parse.
(** [parse] from the point where a non-empty scheme is known: it is
    given the scheme and the rest of the input. *)
Variable parse_with_scheme : string → string → option URL * error.

(** [parse(rawURL, viaRequest)] at [viaRequest = true]. *)
Definition parse (rawURL : string) : option URL * error :=
  if stringContainsCTLByte rawURL then
    (None, Some "net/url: invalid control character in URL")
  else if String.eqb rawURL "" then (None, Some "empty url")
  else if String.eqb rawURL "*" then
    (Some (mkURL "" "" "" "*" false ""), None)
  else
    match getScheme rawURL with
    | (_, _, Some err) => (None, Some err)
    | (String c scheme, rest, None) =>
        parse_with_scheme (String c scheme) rest
    | (EmptyString, rest, None) =>
        let '(rest, rawQuery, forceQuery) :=
          if strings.HasSuffix rest "?" && (Count1 rest "?" =? 1)
          then (strings.take (Z.to_nat (strings.len rest - 1)) rest,
                "", true)
          else let '(before, after, _) := Cut rest "?" in
               (before, after, false) in
        if negb (strings.HasPrefix rest "/") then
          (None, Some "invalid URI for request")
        else
          (* setPath *)
          match unescape rest encodePath with
          | (_, Some err) => (None, Some err)
          | (path, None) =>
              (Some (mkURL "" "" "" path forceQuery rawQuery), None)
          end
    end.

Definition ParseRequestURI (rawURL : string) : option URL * error :=
  match parse rawURL with
  | (_, Some err) => (None, Some ("parse " +:+ rawURL +:+ ": " +:+ err))
  | (u, None) => (u, None)
  end.
End parse.

(** One step of the loop of [parseQuery], on the piece [key] that
    [strings.Cut(query, "&")] has split off. *)
Definition parseQuery_step (m : Values) (key : string) : Values :=
  if strings.Contains key ";" then m
  else if String.eqb key "" then m
  else
    let '(key, value, _) := Cut key "=" in
    match QueryUnescape key with
    | (_, Some _) => m
    | (key, None) =>
        match QueryUnescape value with
        | (_, Some _) => m
        | (value, None) => <[key := default [] (m !! key) ++ [value]]> m
        end
    end.

(** [ParseQuery(query)] without its error: the loop, which cuts [query] at
    the next ['&'] until nothing is left, visits the pieces between the
    ['&'] in order. *)
Definition ParseQuery (query : string) : Values :=
  foldl parseQuery_step ∅ (strings.Split1 query "&").

(** [func (u *URL) Query() Values] is [ParseQuery(u.RawQuery)], the error
    dropped. *)
Definition Query (u : URL) : Values := ParseQuery (RawQuery u).

End url.

(** What the reference platform leaves open. *)
Record Open : Type := {
  open_parse_with_scheme : string → string → option URL * error;
  open_json_Unmarshal : string → Config → Config * error;
  open_Client : Type;
  open_DefaultVersion : string;
  open_NewClient : string → string → option open_Client * error;
}.

(** The reference platform: [net/url] as in [Module url], maps visited in
    the order of [map_to_list]. *)
Definition reference (o : Open) : Platform := {|
  QueryUnescape := url.QueryUnescape;
  ParseRequestURI := url.ParseRequestURI (open_parse_with_scheme o);
  Query := url.Query;
  json_Unmarshal := open_json_Unmarshal o;
  range_keys m := (map_to_list m).*1;
  range_keys_perm m := reflexivity (map_to_list m).*1;
  Client := open_Client o;
  DefaultVersion := open_DefaultVersion o;
  NewClient := open_NewClient o;
|}.

(** ** Package [authorization]: what the daemon sends and expects back *)

Record Request : Type := mkRequest {
  RequestMethod : string;
  RequestURI : string;
  RequestBody : string;
}.

Record Response : Type := mkResponse {
  Allow : bool;
  Msg : string;
  Err : string;
}.

(** ** The standard logger

    [log.Println] receives operands; a line of the log is recorded as the
    list of its operands (the time stamp and the layout belong to package
    [log]).  [LogURL u] stands for the text [u.String()]. *)

Inductive operand : Type :=
| LogString (s : string)
| LogURL (u : URL).

Abbreviation Log := (list (list operand)).

(** Code that may panic and that writes to the log. *)
Definition Go (A : Type) : Type := Log → outcome A * Log.

#[global] Instance Go_ret : MRet Go := λ A a σ, (Returns a, σ).
#[global] Instance Go_bind : MBind Go := λ A B f m σ,
  match m σ with
  | (Returns a, σ') => f a σ'
  | (Panics why, σ') => (Panics why, σ')
  end.

Definition lift {A : Type} (o : outcome A) : Go A := λ σ, (o, σ).

Definition log_Println (operands : list operand) : Go unit :=
  λ σ, (Returns (), σ ++ [operands]).

(** ** [plugin.go] *)

Section plugin.
Context {platform : Platform}.

(** Image Authorization Plugin struct definition *)
Record ImgAuthZPlugin : Type := mkPlugin {
  client : option Client;
  authorizedRegistries : gmap string bool;
  numAuthorizedRegistries : Z;
  authRegistriesAsString : string;
  authorizedImages : gmap string bool;
  numAuthorizedImages : Z;
  authImagesAsString : string;
}.

(** [keys := make([]string, 0, len(m)); for k := range m { keys = append(keys, k) }] *)
Definition collect_keys (m : gmap string bool) : list string :=
  foldl (λ keys k, keys ++ [k]) [] (range_keys m).

(** Returns the list of authorized registries as string *)
Definition authRegistries (m : gmap string bool) : string :=
  let keys := collect_keys m in
  strings.Join keys ", ".

(** Returns the list of authorized images as string *)
Definition authImages (m : gmap string bool) : string :=
  let keys := collect_keys m in
  strings.Join keys ", ".

(** [len(m)] of a map *)
Definition map_len (m : gmap string bool) : Z := Z.of_nat (size m).

(** Create a new image authorization plugin *)
Definition newPlugin (dockerHost : string) (registries images : gmap string bool)
    : option ImgAuthZPlugin * error :=
  let '(client, err) := NewClient dockerHost DefaultVersion in
  match err with
  | Some e => (None, Some e)
  | None =>
      (Some {| client := client;
               authorizedRegistries := registries;
               authorizedImages := images;
               numAuthorizedRegistries := map_len registries;
               numAuthorizedImages := map_len images;
               authRegistriesAsString := authRegistries registries;
               authImagesAsString := authImages images |}, None)
  end.

Definition hasAuthorizedRegistries (plugin : ImgAuthZPlugin) : bool :=
  0 <? numAuthorizedRegistries plugin.

Definition hasAuthorizedImages (plugin : ImgAuthZPlugin) : bool :=
  0 <? numAuthorizedImages plugin.

(** Lines 92 to 102 of [processRequest]: the value of [imagePath] when the
    test [len(imagePath) > 0] is reached, for the URL [reqURL] points to. *)
Definition imagePath_of (req : Request) (reqURL : URL) : string :=
  let imagePath := "" in
  (* docker run *)
  let imagePath :=
    if strings.HasSuffix (Path reqURL) "/containers/create" then
      let config := mkConfig "" in
      let '(config, _) := json_Unmarshal (RequestBody req) config in
      Image config
    else imagePath in
  (* docker pull *)
  let imagePath :=
    if strings.HasSuffix (Path reqURL) "/images/create" then
      Values_Get (Query reqURL) "fromImage"
    else imagePath in
  imagePath.

(** [processRequest]; [reqURL] is a pointer, and the first [reqURL.Path]
    dereferences it. *)
Definition processRequest (plugin : ImgAuthZPlugin) (req : Request)
    (reqURL : option URL) : outcome (string * string * bool) :=
  let registry := "" in
  let image := "" in
  u ← deref reqURL;
  let imagePath := imagePath_of req u in
  if 0 <? strings.len imagePath then
    (* If no registry is specfied, assume it is the dockerhub! *)
    let registry := "library" in
    let idx := strings.Index imagePath "/" in
    '(registry, image) ←
      (if negb (idx =? -1) then
         registry ← strings.slice imagePath 0 idx;
         image ← strings.slice_from imagePath idx;
         mret (registry, image)
       else mret (registry, image));
    mret (registry, image, true)
  else mret (registry, image, false).

Definition registries_message : string :=
  "You can only use docker images from the following authorized registries: ".

(** Authorizes the docker client command. *)
Definition AuthZReq (plugin : ImgAuthZPlugin) (req : Request) : Go Response :=
  (* Parse request and the request body *)
  let '(reqURI, _) := QueryUnescape (RequestURI req) in
  let '(reqURL, _) := ParseRequestURI reqURI in
  '(requestedRegistry, requestedImage, isRegistryCommand) ←
    lift (processRequest plugin req reqURL);
  if Bool.eqb isRegistryCommand false then
    u ← lift (deref reqURL);
    log_Println [LogString "[ALLOWED] Not a registry command:";
                 LogString (RequestMethod req); LogURL u];;
    mret (mkResponse true "" "")
  else if Bool.eqb (hasAuthorizedRegistries plugin) false then
    u ← lift (deref reqURL);
    log_Println [LogString "[DENIED] No authorized registries";
                 LogString (RequestMethod req); LogURL u];;
    mret (mkResponse false "No authorized registries configured" "")
  else if Bool.eqb (hasAuthorizedImages plugin) false then
    u ← lift (deref reqURL);
    log_Println [LogString "[DENIED] No authorized images";
                 LogString (RequestMethod req); LogURL u];;
    mret (mkResponse false "No authorized images configured" "")
  else
    (* Verify that registry requested is authorized *)
    let registryAuthorized :=
      default false (authorizedRegistries plugin !! requestedRegistry) in
    let imageAuthorized :=
      default false (authorizedImages plugin !! requestedImage) in
    if registryAuthorized && imageAuthorized then
      u ← lift (deref reqURL);
      log_Println [LogString ("[ALLOWED] Registry:" +:+ requestedRegistry
                              +:+ ", Image: " +:+ requestedImage);
                   LogString (RequestMethod req); LogURL u];;
      mret (mkResponse true "" "")
    else
      u ← lift (deref reqURL);
      log_Println [LogString "[DENIED] Registry:";
                   LogString requestedRegistry;
                   LogString (RequestMethod req); LogURL u];;
      mret (mkResponse false
              (registries_message +:+ authRegistriesAsString plugin) "").

(** Authorizes the docker client response.
    All responses are allowed by default. *)
Definition AuthZRes (plugin : ImgAuthZPlugin) (req : Request) : Response :=
  mkResponse true "" "".

End plugin.

(** ** [main.go]: the whitelists built from the command line *)

Module main.
Section main.
Context {platform : Platform}.

(** [registries := make(map[string]bool);
     for _, registry := range authorizedRegistries { registries[registry] = true }] *)
Definition registries (flags : list string) : gmap string bool :=
  foldl (λ registries registry, <[registry := true]> registries) ∅ flags.

(** The same loop over the [-image] flags. *)
Definition images (flags : list string) : gmap string bool :=
  foldl (λ images image, <[image := true]> images) ∅ flags.

(** [newPlugin] on the host flag and the two maps *)
Definition plugin (flDockerHost : string) (registry image : list string)
    : option ImgAuthZPlugin * error :=
  newPlugin flDockerHost (registries registry) (images image).
End main.
End main.

(** ** The request as [AuthZReq] decodes it *)

Section decoding.
Context {platform : Platform}.

(** The pointer [reqURL] that [AuthZReq] computes from the request and
    hands to [processRequest]. *)
Definition reqURL_of (req : Request) : option URL :=
  (ParseRequestURI (QueryUnescape (RequestURI req)).1).1.
End decoding.

(** ** Sample data: a platform, and the requests of the scenarios *)

(** A way to fill what the reference platform leaves open: no absolute
    request target parses, no body decodes, the client is always created. *)
Definition sample_open : Open := {|
  open_parse_with_scheme _ _ := (None, Some "unsupported");
  open_json_Unmarshal _ config := (config, Some "unexpected end of JSON input");
  open_Client := unit;
  open_DefaultVersion := "1.24";
  open_NewClient _ _ := (Some (), None);
|}.

(** [docker pull ubuntu] *)
Definition pull_ubuntu : Request :=
  mkRequest "POST" "/v1.40/images/create?fromImage=ubuntu" "".

(** [docker pull myregistry/app:latest] *)
Definition pull_myregistry_app : Request :=
  mkRequest "POST" "/v1.40/images/create?fromImage=myregistry/app:latest" "".

(** [docker pull /app] *)
Definition pull_slash_app : Request :=
  mkRequest "POST" "/v1.40/images/create?fromImage=/app" "".

(** A listing whose filter holds a stray ['%']. *)
Definition list_bad_escape : Request :=
  mkRequest "GET" "/v1.40/images/json?filters=%zz" "".

(** [docker ps] *)
Definition list_containers : Request :=
  mkRequest "GET" "/v1.40/containers/json" "".

Definition pull_ubuntu_url : URL :=
  mkURL "" "" "" "/v1.40/images/create" false "fromImage=ubuntu".
Definition pull_myregistry_app_url : URL :=
  mkURL "" "" "" "/v1.40/images/create" false "fromImage=myregistry/app:latest".
Definition pull_slash_app_url : URL :=
  mkURL "" "" "" "/v1.40/images/create" false "fromImage=/app".
Definition list_containers_url : URL :=
  mkURL "" "" "" "/v1.40/containers/json" false "".

(** The plugin of [-registry library -image ubuntu], of
    [-registry myregistry -image /app:latest], and of no flag at all, on the
    sample platform. *)
Definition sample_client : option (@Client (reference sample_open)) :=
  Some ().

Definition plugin_library_ubuntu : @ImgAuthZPlugin (reference sample_open) :=
  mkPlugin sample_client (main.registries ["library"]) 1 "library"
           (main.images ["ubuntu"]) 1 "ubuntu".
Definition plugin_myregistry_app : @ImgAuthZPlugin (reference sample_open) :=
  mkPlugin sample_client (main.registries ["myregistry"]) 1 "myregistry"
           (main.images ["/app:latest"]) 1 "/app:latest".
Definition plugin_no_flags : @ImgAuthZPlugin (reference sample_open) :=
  mkPlugin sample_client ∅ 0 "" ∅ 0 "".

(** Two calls in a row, the second one on the log the first one left: the
    two outcomes. *)
Definition twice {A : Type} (call : Go A) (σ : Log) : outcome A * outcome A :=
  let '(first, σ') := call σ in
  let '(second, _) := call σ' in
  (first, second).

(** The plugin that [newPlugin] builds on the sample platform from the two
    lists of flags. *)
Definition sample_plugin (registry image : list string)
    : @ImgAuthZPlugin (reference sample_open) :=
  mkPlugin sample_client
    (main.registries registry) (map_len (main.registries registry))
    (authRegistries (platform := reference sample_open)
       (main.registries registry))
    (main.images image) (map_len (main.images image))
    (authImages (platform := reference sample_open) (main.images image)).

(** [docker create], with a stray [fromImage] in the query. *)
Definition create_container : Request :=
  mkRequest "POST" "/v1.40/containers/create?fromImage=ubuntu" "{}".
Definition create_container_url : URL :=
  mkURL "" "" "" "/v1.40/containers/create" false "fromImage=ubuntu".

(** * Properties *)

(** ** Strings *)

Module strings_facts.
Import strings.

(** The bytes of a string. *)
Abbreviation bytes := list_ascii_of_string.

Lemma app_cons (c : ascii) (s t : string) :
  String c s +:+ t = String c (s +:+ t).
Proof. reflexivity. Qed.

Lemma app_empty_r (s : string) : s +:+ "" = s.
Proof. induction s as [|c s IH]; [done|]. by rewrite app_cons, IH. Qed.

Lemma length_app (s t : string) :
  String.length (s +:+ t) = (String.length s + String.length t)%nat.
Proof.
  induction s as [|c s IH]; [done|]. rewrite app_cons. simpl. by rewrite IH.
Qed.

Lemma len_app (s t : string) : len (s +:+ t) = len s + len t.
Proof. unfold len. rewrite length_app. lia. Qed.

Lemma len_nonneg (s : string) : 0 <= len s.
Proof. unfold len. lia. Qed.

Lemma len_pos (s : string) : s ≠ "" ↔ 0 < len s.
Proof. unfold len. destruct s; simpl; split; (done || lia). Qed.

Lemma drop_app_length (s t : string) : drop (String.length s) (s +:+ t) = t.
Proof. induction s as [|c s IH]; [by destruct t|]. by rewrite app_cons. Qed.

Lemma take_app_length (s t : string) : take (String.length s) (s +:+ t) = s.
Proof.
  induction s as [|c s IH]; [by destruct t|]. rewrite app_cons. simpl.
  by rewrite IH.
Qed.

Lemma take_drop (n : nat) (s : string) : take n s +:+ drop n s = s.
Proof.
  revert s. induction n as [|n IH]; intros [|c s]; try done.
  simpl. by rewrite app_cons, IH.
Qed.

Lemma take_all (s : string) : take (String.length s) s = s.
Proof. induction s as [|c s IH]; [done|]. simpl. by rewrite IH. Qed.

Lemma length_drop (n : nat) (s : string) :
  String.length (drop n s) = (String.length s - n)%nat.
Proof. revert s. induction n as [|n IH]; intros [|c s]; simpl; auto. Qed.

(** [HasSuffix] decides "ends with". *)
Lemma HasSuffix_spec (s suffix : string) :
  HasSuffix s suffix = true ↔ ∃ pre, s = pre +:+ suffix.
Proof.
  unfold HasSuffix. rewrite andb_true_iff, Z.leb_le, String.eqb_eq. split.
  - intros [Hle Heq]. exists (take (Z.to_nat (len s - len suffix)) s).
    rewrite <- Heq at 2. by rewrite take_drop.
  - intros [pre ->]. rewrite len_app. split; [pose proof (len_nonneg pre); lia|].
    replace (Z.to_nat (len pre + len suffix - len suffix))
      with (String.length pre) by (unfold len; lia).
    apply drop_app_length.
Qed.

Lemma HasSuffix_false (s suffix : string) :
  (¬ ∃ pre, s = pre +:+ suffix) → HasSuffix s suffix = false.
Proof.
  intros Hno. destruct (HasSuffix s suffix) eqn:E; [|done].
  by apply HasSuffix_spec in E.
Qed.

(** [HasPrefix s "/"] reads the first byte. *)
Lemma HasPrefix_slash (s : string) :
  HasPrefix s "/" = true ↔ ∃ rest, s = String "/" rest.
Proof.
  unfold HasPrefix. destruct s as [|c s].
  - split; [done|]. by intros [? ?].
  - change (take (String.length "/") (String c s)) with (String c "").
    rewrite andb_true_iff, String.eqb_eq, Z.leb_le. split.
    + intros [_ [= ->]]. eauto.
    + intros [rest [= -> ->]]. split; [|done]. unfold len.
      simpl String.length. lia.
Qed.

Lemma Index_cons (c : ascii) (s substr : string) :
  Index (String c s) substr =
    if HasPrefix (String c s) substr then 0
    else if Index s substr =? -1 then -1 else Index s substr + 1.
Proof. reflexivity. Qed.

(** [Index] is [-1] or a position of the string. *)
Lemma Index_range (s substr : string) :
  Index s substr = -1 ∨ 0 <= Index s substr <= len s.
Proof.
  induction s as [|c s IH].
  - simpl. destruct (HasPrefix "" substr); [right|left]; done.
  - rewrite Index_cons. destruct (HasPrefix _ _).
    + right. pose proof (len_nonneg (String c s)). lia.
    + destruct (Z.eqb_spec (Index s substr) (-1)); [by left|right].
      unfold len in *. simpl String.length. lia.
Qed.

(** Without a ['/'] among its bytes, a string has no index for ["/"]. *)
Lemma Index_slash_none (s : string) :
  "/"%char ∉ bytes s → Index s "/" = -1.
Proof.
  induction s as [|c s IH]; intros Hno.
  - reflexivity.
  - simpl in Hno. apply not_elem_of_cons in Hno as [Hc Hs].
    rewrite Index_cons.
    destruct (HasPrefix (String c s) "/") eqn:E.
    + apply HasPrefix_slash in E as [rest [= -> _]]. done.
    + by rewrite (IH Hs).
Qed.

(** The index of ["/"] is the length of what comes before the first
    ['/']. *)
Lemma Index_slash_first (pre post : string) :
  "/"%char ∉ bytes pre →
  Index (pre +:+ String "/" post) "/" = len pre.
Proof.
  induction pre as [|c pre IH]; intros Hno.
  - change ("" +:+ String "/" post) with (String "/" post).
    rewrite Index_cons.
    assert (HasPrefix (String "/" post) "/" = true) as ->; [|done].
    apply HasPrefix_slash. eauto.
  - simpl in Hno. apply not_elem_of_cons in Hno as [Hc Hs].
    rewrite app_cons, Index_cons.
    destruct (HasPrefix (String c (pre +:+ String "/" post)) "/") eqn:E.
    + apply HasPrefix_slash in E as [rest [= -> _]]. done.
    + rewrite (IH Hs). pose proof (len_nonneg pre).
      destruct (Z.eqb_spec (len pre) (-1)); [lia|].
      unfold len. simpl String.length. lia.
Qed.

(** In-range slices return. *)
Lemma slice_prefix (s t : string) :
  slice (s +:+ t) 0 (len s) = Returns s.
Proof.
  unfold slice. pose proof (len_nonneg s). pose proof (len_nonneg t).
  rewrite len_app.
  assert ((0 <=? 0) && (0 <=? len s) && (len s <=? len s + len t) = true)
    as -> by (rewrite !andb_true_iff, !Z.leb_le; lia).
  f_equal. rewrite Z.sub_0_r. unfold len. rewrite Nat2Z.id. simpl.
  apply take_app_length.
Qed.

Lemma slice_from_suffix (s t : string) :
  slice_from (s +:+ t) (len s) = Returns t.
Proof.
  unfold slice_from, slice. pose proof (len_nonneg s).
  pose proof (len_nonneg t). rewrite len_app.
  assert ((0 <=? len s) && (len s <=? len s + len t)
          && (len s + len t <=? len s + len t) = true)
    as -> by (rewrite !andb_true_iff, !Z.leb_le; lia).
  f_equal. replace (len s + len t - len s) with (len t) by lia.
  unfold len. rewrite !Nat2Z.id, drop_app_length. apply take_all.
Qed.

Lemma slice_in_range (s : string) (lo hi : Z) :
  0 <= lo <= hi → hi <= len s → ∃ t, slice s lo hi = Returns t.
Proof.
  intros Hlo Hhi. unfold slice.
  assert ((0 <=? lo) && (lo <=? hi) && (hi <=? len s) = true)
    as -> by (rewrite !andb_true_iff, !Z.leb_le; lia).
  eauto.
Qed.

End strings_facts.

(** ** The whitelists that [main] builds *)

Section whitelists.

Lemma insert_true_lookup (flags : list string) (m : gmap string bool) (k : string) :
  foldl (λ m r, <[r := true]> m) m flags !! k
  = if decide (k ∈ flags) then Some true else m !! k.
Proof.
  revert m. induction flags as [|r flags IH]; intros m; cbn [foldl].
  - by rewrite decide_False by apply not_elem_of_nil.
  - rewrite IH. destruct (decide (k ∈ flags)) as [Hin|Hnin].
    + by rewrite decide_True by (by right).
    + destruct (decide (k = r)) as [->|Hne].
      * rewrite decide_True by left. apply lookup_insert_eq.
      * rewrite decide_False by (intros [?|?]%elem_of_cons; done).
        by apply lookup_insert_ne.
Qed.

Lemma registries_lookup (flags : list string) (k : string) :
  main.registries flags !! k = if decide (k ∈ flags) then Some true else None.
Proof. unfold main.registries. by rewrite insert_true_lookup, lookup_empty. Qed.

Lemma images_lookup (flags : list string) (k : string) :
  main.images flags !! k = if decide (k ∈ flags) then Some true else None.
Proof. unfold main.images. by rewrite insert_true_lookup, lookup_empty. Qed.

(** Membership test [m[k]] on a whitelist built by [main]. *)
Lemma registries_member (flags : list string) (k : string) :
  default false (main.registries flags !! k) = true ↔ k ∈ flags.
Proof. rewrite registries_lookup. by case_decide. Qed.

Lemma images_member (flags : list string) (k : string) :
  default false (main.images flags !! k) = true ↔ k ∈ flags.
Proof. rewrite images_lookup. by case_decide. Qed.

Lemma registries_nonempty (flags : list string) :
  flags ≠ [] → 0 < Z.of_nat (size (main.registries flags)).
Proof.
  destruct flags as [|r flags]; [done|]. intros _.
  assert (main.registries (r :: flags) ≠ ∅) as Hne.
  { intros Heq. pose proof (registries_lookup (r :: flags) r) as Hl.
    rewrite Heq, lookup_empty, decide_True in Hl by left. done. }
  apply map_size_non_empty_iff in Hne. lia.
Qed.

Lemma images_nonempty (flags : list string) :
  flags ≠ [] → 0 < Z.of_nat (size (main.images flags)).
Proof. apply registries_nonempty. Qed.

(** The keys of a whitelist are the flags, each once. *)
Lemma registries_keys (flags keys : list string) :
  keys ≡ₚ (map_to_list (main.registries flags)).*1 →
  NoDup keys ∧ ∀ k, k ∈ keys ↔ k ∈ flags.
Proof.
  intros Hperm. split.
  - rewrite Hperm. apply NoDup_fst_map_to_list.
  - intros k. rewrite Hperm, list_elem_of_fmap. split.
    + intros [[k' v] [-> Hin]]. apply elem_of_map_to_list in Hin.
      rewrite registries_lookup in Hin. by case_decide.
    + intros Hin. exists (k, true). split; [done|].
      apply elem_of_map_to_list. rewrite registries_lookup.
      by rewrite decide_True.
Qed.

End whitelists.

(** ** The classifier *)

Section classifier.
Context {platform : Platform}.
Import strings strings_facts.

Implicit Types (plugin : ImgAuthZPlugin) (req : Request) (u : URL).

Lemma foldl_snoc (acc l : list string) :
  foldl (λ keys k, keys ++ [k]) acc l = acc ++ l.
Proof.
  revert acc. induction l as [|k l IH]; intros acc; simpl.
  - by rewrite app_nil_r.
  - by rewrite IH, <- app_assoc.
Qed.

Lemma collect_keys_eq (m : gmap string bool) : collect_keys m = range_keys m.
Proof. apply foldl_snoc. Qed.

(** A nil [reqURL] makes [processRequest] panic at its first line. *)
Lemma processRequest_nil plugin req :
  processRequest plugin req None = Panics nil_dereference.
Proof. reflexivity. Qed.

(** No candidate image path: not a registry command. *)
Lemma processRequest_empty plugin req u :
  imagePath_of req u = "" →
  processRequest plugin req (Some u) = Returns ("", "", false).
Proof. intros H. unfold processRequest. simpl. by rewrite H. Qed.

(** A candidate without ['/']: the registry is ["library"] and [image]
    keeps its initial value, the empty string. *)
Lemma processRequest_no_slash plugin req u :
  imagePath_of req u ≠ "" →
  "/"%char ∉ bytes (imagePath_of req u) →
  processRequest plugin req (Some u) = Returns ("library", "", true).
Proof.
  intros Hne Hno. unfold processRequest. simpl.
  apply len_pos, Z.ltb_lt in Hne. rewrite Hne.
  by rewrite (Index_slash_none _ Hno).
Qed.

(** A candidate with a ['/']: it is cut in front of the first one. *)
Lemma processRequest_slash plugin req u (pre post : string) :
  imagePath_of req u = pre +:+ String "/" post →
  "/"%char ∉ bytes pre →
  processRequest plugin req (Some u) = Returns (pre, String "/" post, true).
Proof.
  intros Hpath Hno. unfold processRequest. simpl. rewrite Hpath.
  pose proof (len_nonneg pre) as Hpre. pose proof (len_nonneg post) as Hpost.
  assert ((0 <? len (pre +:+ String "/" post)) = true) as ->.
  { apply Z.ltb_lt. rewrite len_app. unfold len in *. simpl String.length. lia. }
  rewrite (Index_slash_first _ _ Hno).
  assert ((len pre =? -1) = false) as -> by (apply Z.eqb_neq; lia).
  simpl. by rewrite slice_prefix, slice_from_suffix.
Qed.

(** With a URL in hand, [processRequest] returns: no slice is out of
    range. *)
Lemma processRequest_total plugin req u :
  ∃ registry image isRegistryCommand,
    processRequest plugin req (Some u)
    = Returns (registry, image, isRegistryCommand).
Proof.
  unfold processRequest. simpl.
  destruct (0 <? len (imagePath_of req u)); [|by eauto].
  destruct (Index_range (imagePath_of req u) "/") as [->|Hrange]; [by eauto|].
  destruct (Z.eqb_spec (Index (imagePath_of req u) "/") (-1)) as [->|_];
    [by eauto|]. simpl.
  destruct (slice_in_range (imagePath_of req u) 0
              (Index (imagePath_of req u) "/")) as [r ->]; [lia..|].
  destruct (slice_in_range (imagePath_of req u)
              (Index (imagePath_of req u) "/") (len (imagePath_of req u)))
    as [i Hi]; [lia..|].
  unfold slice_from. rewrite Hi. simpl. eauto.
Qed.

(** A path with neither suffix yields no candidate. *)
Lemma imagePath_of_other req u :
  (¬ ∃ pre, Path u = pre +:+ "/containers/create") →
  (¬ ∃ pre, Path u = pre +:+ "/images/create") →
  imagePath_of req u = "".
Proof.
  intros H1 H2. unfold imagePath_of.
  by rewrite (HasSuffix_false _ _ H1), (HasSuffix_false _ _ H2).
Qed.

(** On a pull, the candidate is the [fromImage] parameter. *)
Lemma imagePath_of_pull req u :
  HasSuffix (Path u) "/images/create" = true →
  imagePath_of req u = Values_Get (Query u) "fromImage".
Proof. intros H. unfold imagePath_of. by rewrite H. Qed.

End classifier.

(** ** The decision *)

Section decision.
Context {platform : Platform}.
Import strings strings_facts.

Implicit Types (plugin : ImgAuthZPlugin) (req : Request) (u : URL) (σ : Log).

(** Brings [AuthZReq] to the call of [processRequest] on the URL [u] that
    hypothesis [Hurl] gives for the request. *)
Ltac decode_request Hurl :=
  unfold AuthZReq, reqURL_of in *;
  destruct (QueryUnescape _) as [reqURI ?]; simpl in Hurl;
  destruct (ParseRequestURI _) as [reqURL ?]; simpl in Hurl; subst reqURL;
  unfold mbind, Go_bind, lift.

(** The plugin that [newPlugin] returns holds the two maps, their sizes and
    their keys joined. *)
Lemma newPlugin_Some (host : string) (regs imgs : gmap string bool) plugin :
  newPlugin host regs imgs = (Some plugin, None) →
  authorizedRegistries plugin = regs
  ∧ authorizedImages plugin = imgs
  ∧ numAuthorizedRegistries plugin = Z.of_nat (size regs)
  ∧ numAuthorizedImages plugin = Z.of_nat (size imgs)
  ∧ authRegistriesAsString plugin = Join (range_keys regs) ", ".
Proof.
  unfold newPlugin. destruct (NewClient _ _) as [c [e|]]; [done|].
  intros [= <-]. simpl. unfold authRegistries. by rewrite collect_keys_eq.
Qed.

(** A request whose URI does not decode makes [AuthZReq] panic. *)
Lemma AuthZReq_nil plugin req σ :
  reqURL_of req = None →
  AuthZReq plugin req σ = (Panics nil_dereference, σ).
Proof. intros Hurl. by decode_request Hurl. Qed.

(** Rule 1: not a registry command. *)
Lemma AuthZReq_not_registry plugin req u registry image σ :
  reqURL_of req = Some u →
  processRequest plugin req (Some u) = Returns (registry, image, false) →
  AuthZReq plugin req σ
  = (Returns (mkResponse true "" ""),
     σ ++ [[LogString "[ALLOWED] Not a registry command:";
            LogString (RequestMethod req); LogURL u]]).
Proof. intros Hurl Hproc. decode_request Hurl. by rewrite Hproc. Qed.

(** Rule 2: no authorized registries. *)
Lemma AuthZReq_no_registries plugin req u registry image σ :
  reqURL_of req = Some u →
  processRequest plugin req (Some u) = Returns (registry, image, true) →
  hasAuthorizedRegistries plugin = false →
  AuthZReq plugin req σ
  = (Returns (mkResponse false "No authorized registries configured" ""),
     σ ++ [[LogString "[DENIED] No authorized registries";
            LogString (RequestMethod req); LogURL u]]).
Proof.
  intros Hurl Hproc Hregs. decode_request Hurl. by rewrite Hproc, Hregs.
Qed.

(** Rule 3: no authorized images. *)
Lemma AuthZReq_no_images plugin req u registry image σ :
  reqURL_of req = Some u →
  processRequest plugin req (Some u) = Returns (registry, image, true) →
  hasAuthorizedRegistries plugin = true →
  hasAuthorizedImages plugin = false →
  AuthZReq plugin req σ
  = (Returns (mkResponse false "No authorized images configured" ""),
     σ ++ [[LogString "[DENIED] No authorized images";
            LogString (RequestMethod req); LogURL u]]).
Proof.
  intros Hurl Hproc Hregs Himgs. decode_request Hurl.
  by rewrite Hproc, Hregs, Himgs.
Qed.

(** Rules 4 and 5: both whitelists are consulted. *)
Lemma AuthZReq_checked plugin req u registry image σ :
  reqURL_of req = Some u →
  processRequest plugin req (Some u) = Returns (registry, image, true) →
  hasAuthorizedRegistries plugin = true →
  hasAuthorizedImages plugin = true →
  ∃ σ', AuthZReq plugin req σ
  = (Returns
       (if default false (authorizedRegistries plugin !! registry)
           && default false (authorizedImages plugin !! image)
        then mkResponse true "" ""
        else mkResponse false
               (registries_message +:+ authRegistriesAsString plugin) ""),
     σ').
Proof.
  intros Hurl Hproc Hregs Himgs. decode_request Hurl.
  rewrite Hproc, Hregs, Himgs. simpl.
  destruct (default false (authorizedRegistries plugin !! registry)
            && default false (authorizedImages plugin !! image));
    simpl; eauto.
Qed.

(** The outcome of [AuthZReq] does not depend on the log it starts from. *)
Lemma AuthZReq_outcome plugin req σ1 σ2 :
  (AuthZReq plugin req σ1).1 = (AuthZReq plugin req σ2).1.
Proof.
  destruct (reqURL_of req) as [u|] eqn:Hurl.
  - destruct (processRequest_total plugin req u)
      as (registry & image & [] & Hproc).
    + destruct (hasAuthorizedRegistries plugin) eqn:Hregs.
      * destruct (hasAuthorizedImages plugin) eqn:Himgs.
        -- destruct (AuthZReq_checked _ _ _ _ _ σ1 Hurl Hproc Hregs Himgs)
             as [σ1' ->].
           destruct (AuthZReq_checked _ _ _ _ _ σ2 Hurl Hproc Hregs Himgs)
             as [σ2' ->].
           done.
        -- by rewrite !(AuthZReq_no_images _ _ _ _ _ _ Hurl Hproc Hregs Himgs).
      * by rewrite !(AuthZReq_no_registries _ _ _ _ _ _ Hurl Hproc Hregs).
    + by rewrite !(AuthZReq_not_registry _ _ _ _ _ _ Hurl Hproc).
  - by rewrite !AuthZReq_nil.
Qed.

End decision.

(** ** The claims *)

Section claims.
Context {platform : Platform}.
Import strings strings_facts.

Implicit Types (plugin : ImgAuthZPlugin) (req : Request) (u : URL) (σ : Log).

(** C4: for a registry operation judged by a plugin whose two whitelists
    are not empty, the response allows exactly when the derived registry is
    among the authorized registries and the derived image among the
    authorized images; a denial carries the message that lists the
    authorized registries, each once, joined by [", "]. *)
Theorem AuthZReq_allow_iff_both_whitelisted
    (host : string) (registry_flags image_flags : list string)
    plugin req u (registry image : string) σ :
  main.plugin host registry_flags image_flags = (Some plugin, None) →
  registry_flags ≠ [] →
  image_flags ≠ [] →
  reqURL_of req = Some u →
  processRequest plugin req (Some u) = Returns (registry, image, true) →
  ∃ resp σ',
    AuthZReq plugin req σ = (Returns resp, σ')
    ∧ (Allow resp = true ↔ registry ∈ registry_flags ∧ image ∈ image_flags)
    ∧ (Allow resp = false →
       ∃ keys, NoDup keys
               ∧ (∀ k, k ∈ keys ↔ k ∈ registry_flags)
               ∧ Msg resp = registries_message +:+ Join keys ", ").
Proof.
  intros Hplugin Hrs His Hurl Hproc. unfold main.plugin in Hplugin.
  apply newPlugin_Some in Hplugin as (Hr & Hi & Hnr & Hni & Hstr).
  assert (hasAuthorizedRegistries plugin = true) as Hregs.
  { unfold hasAuthorizedRegistries. rewrite Hnr.
    by apply Z.ltb_lt, registries_nonempty. }
  assert (hasAuthorizedImages plugin = true) as Himgs.
  { unfold hasAuthorizedImages. rewrite Hni.
    by apply Z.ltb_lt, images_nonempty. }
  destruct (AuthZReq_checked _ _ _ _ _ σ Hurl Hproc Hregs Himgs) as [σ' Heq].
  eexists _, σ'. split; [exact Heq|]. rewrite Hr, Hi.
  rewrite <- (registries_member registry_flags registry).
  rewrite <- (images_member image_flags image).
  destruct (registries_keys registry_flags _
              (range_keys_perm (main.registries registry_flags)))
    as [Hnodup Hkeys].
  destruct (default false (main.registries registry_flags !! registry));
    destruct (default false (main.images image_flags !! image));
    simpl; (split; [intuition congruence|]); intros Hdeny;
    try discriminate Hdeny;
    exists (range_keys (main.registries registry_flags));
    by rewrite Hstr.
Qed.

(** C5: for a registry operation, a plugin made with an empty map of
    registries denies with "No authorized registries configured", whatever
    the images are; one made with some registry and an empty map of images
    denies with "No authorized images configured". *)
Theorem AuthZReq_empty_whitelist_denies
    (host : string) (regs imgs : gmap string bool)
    plugin req u (registry image : string) σ :
  newPlugin host regs imgs = (Some plugin, None) →
  reqURL_of req = Some u →
  processRequest plugin req (Some u) = Returns (registry, image, true) →
  (regs = ∅ →
   ∃ σ', AuthZReq plugin req σ
         = (Returns (mkResponse false "No authorized registries configured" ""),
            σ'))
  ∧ (regs ≠ ∅ → imgs = ∅ →
     ∃ σ', AuthZReq plugin req σ
           = (Returns (mkResponse false "No authorized images configured" ""),
              σ')).
Proof.
  intros Hplugin Hurl Hproc.
  apply newPlugin_Some in Hplugin as (Hr & Hi & Hnr & Hni & Hstr). split.
  - intros ->. eexists. eapply AuthZReq_no_registries; [done..|].
    unfold hasAuthorizedRegistries. by rewrite Hnr, map_size_empty.
  - intros Hne ->. eexists. eapply AuthZReq_no_images; [done..| |].
    + unfold hasAuthorizedRegistries. rewrite Hnr.
      apply map_size_non_empty_iff in Hne. apply Z.ltb_lt. lia.
    + unfold hasAuthorizedImages. by rewrite Hni, map_size_empty.
Qed.

(** C6: when the candidate image path is [pre], then a ['/'], then [post],
    with no ['/'] in [pre] (so for every position of the first ['/']),
    [processRequest] returns the registry [pre], the image that starts at
    that ['/'], and [true]. *)
Theorem processRequest_splits_at_first_slash
    plugin req u (pre post : string) :
  imagePath_of req u = pre +:+ String "/" post →
  "/"%char ∉ bytes pre →
  processRequest plugin req (Some u) = Returns (pre, String "/" post, true).
Proof. apply processRequest_slash. Qed.

(** X14: a request whose URI decodes to a URL, and whose decoded path ends
    neither with "/containers/create" nor with "/images/create", is allowed
    by every plugin. *)
Theorem AuthZReq_other_paths_allowed plugin req u σ :
  reqURL_of req = Some u →
  (¬ ∃ pre, Path u = pre +:+ "/containers/create") →
  (¬ ∃ pre, Path u = pre +:+ "/images/create") →
  ∃ σ', AuthZReq plugin req σ = (Returns (mkResponse true "" ""), σ').
Proof.
  intros Hurl Hrun Hpull. eexists.
  eapply AuthZReq_not_registry; [done|].
  apply processRequest_empty. by apply imagePath_of_other.
Qed.

(** C8: [AuthZRes] allows every response, for every plugin and every
    request. *)
Theorem AuthZRes_always_allows plugin req :
  AuthZRes plugin req = mkResponse true "" ""
  ∧ Allow (AuthZRes plugin req) = true.
Proof. split; reflexivity. Qed.

(** C9: the outcome of [AuthZReq] on a plugin and a request is the same
    from any two states of the log, and two calls in a row give the same
    outcome. *)
Theorem AuthZReq_deterministic plugin req :
  (∀ σ1 σ2, (AuthZReq plugin req σ1).1 = (AuthZReq plugin req σ2).1)
  ∧ (∀ σ, (twice (AuthZReq plugin req) σ).1 = (twice (AuthZReq plugin req) σ).2).
Proof.
  split; [apply AuthZReq_outcome|]. intros σ. unfold twice.
  destruct (AuthZReq plugin req σ) as [first σ'] eqn:H1.
  destruct (AuthZReq plugin req σ') as [second σ''] eqn:H2. simpl.
  pose proof (AuthZReq_outcome plugin req σ σ') as Heq.
  by rewrite H1, H2 in Heq.
Qed.

(** C10: a candidate image path that begins with ['/'] is classified with
    the empty registry and the whole path as image, and a response to it
    that allows shows that the map of authorized registries holds the empty
    string. *)
Theorem leading_slash_needs_empty_registry plugin req u (rest : string) :
  imagePath_of req u = String "/" rest →
  processRequest plugin req (Some u) = Returns ("", String "/" rest, true)
  ∧ (reqURL_of req = Some u →
     ∀ σ resp σ',
       AuthZReq plugin req σ = (Returns resp, σ') →
       Allow resp = true →
       authorizedRegistries plugin !! "" = Some true).
Proof.
  intros Hpath.
  assert (processRequest plugin req (Some u)
          = Returns ("", String "/" rest, true)) as Hproc.
  { apply (processRequest_slash plugin req u "" rest); [done|].
    apply not_elem_of_nil. }
  split; [done|]. intros Hurl σ resp σ' Hrun Hallow.
  destruct (hasAuthorizedRegistries plugin) eqn:Hregs.
  - destruct (hasAuthorizedImages plugin) eqn:Himgs.
    + destruct (AuthZReq_checked _ _ _ _ _ σ Hurl Hproc Hregs Himgs)
        as [σ'' Heq].
      rewrite Heq in Hrun. injection Hrun as <- _.
      destruct (authorizedRegistries plugin !! "") as [[]|]; simpl in *;
        done.
    + rewrite (AuthZReq_no_images _ _ _ _ _ _ Hurl Hproc Hregs Himgs) in Hrun.
      by injection Hrun as <- _.
  - rewrite (AuthZReq_no_registries _ _ _ _ _ _ Hurl Hproc Hregs) in Hrun.
    by injection Hrun as <- _.
Qed.

End claims.

(** ** The scenarios, on the reference platform *)

Section scenarios.
Variable o : Open.

Local Abbreviation reqURL_of := (reqURL_of (platform := reference o)).
Local Abbreviation imagePath_of := (imagePath_of (platform := reference o)).

Implicit Types (plugin : @ImgAuthZPlugin (reference o)) (σ : Log).

(** C1: on [docker pull ubuntu] the candidate image path is "ubuntu",
    which has no ['/']; [processRequest] returns the registry "library" and
    [true], but the image it returns is the empty string, not "ubuntu". *)
Theorem pull_ubuntu_image_is_empty plugin :
  reqURL_of pull_ubuntu = Some pull_ubuntu_url
  ∧ imagePath_of pull_ubuntu pull_ubuntu_url = "ubuntu"
  ∧ processRequest plugin pull_ubuntu (Some pull_ubuntu_url)
    = Returns ("library", "", true)
  ∧ processRequest plugin pull_ubuntu (Some pull_ubuntu_url)
    ≠ Returns ("library", "ubuntu", true).
Proof.
  assert (imagePath_of pull_ubuntu pull_ubuntu_url = "ubuntu") as Hpath
    by (vm_compute; reflexivity).
  assert (processRequest plugin pull_ubuntu (Some pull_ubuntu_url)
          = Returns ("library", "", true)) as Hproc.
  { apply processRequest_no_slash; rewrite Hpath; [done|].
    apply (bool_decide_unpack _). vm_compute. exact I. }
  split; [vm_compute; reflexivity|]. split; [done|]. split; [done|].
  rewrite Hproc. discriminate.
Qed.

(** C2: the request URI "/v1.40/images/json?filters=%zz" does not
    percent-unescape; [reqURL] is then nil, [processRequest] panics on it,
    and so does [AuthZReq]: no response is returned. *)
Theorem bad_escape_panics plugin σ :
  reqURL_of list_bad_escape = None
  ∧ processRequest plugin list_bad_escape (reqURL_of list_bad_escape)
    = Panics nil_dereference
  ∧ AuthZReq plugin list_bad_escape σ = (Panics nil_dereference, σ).
Proof.
  assert (reqURL_of list_bad_escape = None) as Hurl
    by (vm_compute; reflexivity).
  split; [done|]. split; [by rewrite Hurl|]. by apply AuthZReq_nil.
Qed.

(** C7: the request "GET /v1.40/images/json?filters=%zz" has the path
    "/v1.40/images/json", which ends neither with "/containers/create" nor
    with "/images/create"; yet [AuthZReq] panics on it for every plugin and
    returns no response: the request is not allowed. *)
Theorem other_path_bad_escape_not_allowed plugin σ :
  RequestURI list_bad_escape = "/v1.40/images/json" +:+ "?filters=%zz"
  ∧ (¬ ∃ pre, "/v1.40/images/json" = pre +:+ "/containers/create")
  ∧ (¬ ∃ pre, "/v1.40/images/json" = pre +:+ "/images/create")
  ∧ AuthZReq plugin list_bad_escape σ = (Panics nil_dereference, σ)
  ∧ ∀ resp σ', AuthZReq plugin list_bad_escape σ ≠ (Returns resp, σ').
Proof.
  assert (AuthZReq plugin list_bad_escape σ = (Panics nil_dereference, σ))
    as Hpanic.
  { apply AuthZReq_nil. vm_compute. reflexivity. }
  split; [reflexivity|]. split; [|split; [|split; [exact Hpanic|]]].
  - intros Hends. apply strings_facts.HasSuffix_spec in Hends.
    vm_compute in Hends. discriminate Hends.
  - intros Hends. apply strings_facts.HasSuffix_spec in Hends.
    vm_compute in Hends. discriminate Hends.
  - intros resp σ'. rewrite Hpanic. discriminate.
Qed.

(** C3: on [docker pull ubuntu], the plugin made from the registries
    {library} and the images {ubuntu} derives the registry "library" and
    the empty image, and denies with the message that lists "library". *)
Theorem scenario_B_is_denied (host : string) plugin σ :
  main.plugin host ["library"] ["ubuntu"] = (Some plugin, None) →
  processRequest plugin pull_ubuntu (reqURL_of pull_ubuntu)
  = Returns ("library", "", true)
  ∧ ∃ σ', AuthZReq plugin pull_ubuntu σ
          = (Returns (mkResponse false (registries_message +:+ "library") ""),
             σ').
Proof.
  intros Hplugin. unfold main.plugin in Hplugin.
  apply newPlugin_Some in Hplugin as (Hr & Hi & Hnr & Hni & Hstr).
  assert (reqURL_of pull_ubuntu = Some pull_ubuntu_url) as Hurl
    by (vm_compute; reflexivity).
  assert (processRequest plugin pull_ubuntu (Some pull_ubuntu_url)
          = Returns ("library", "", true)) as Hproc.
  { apply processRequest_no_slash.
    - by vm_compute.
    - apply (bool_decide_unpack _). vm_compute. exact I. }
  split; [by rewrite Hurl|].
  destruct (AuthZReq_checked plugin pull_ubuntu _ _ _ σ Hurl Hproc)
    as [σ' Heq].
  - unfold hasAuthorizedRegistries. by rewrite Hnr.
  - unfold hasAuthorizedImages. by rewrite Hni.
  - exists σ'. rewrite Heq, Hr, Hi, Hstr. reflexivity.
Qed.

End scenarios.

(** ** Instances of the theorems above *)

Lemma scenario_B_is_denied_witness :
  processRequest plugin_library_ubuntu pull_ubuntu
    (reqURL_of (platform := reference sample_open) pull_ubuntu)
  = Returns ("library", "", true)
  ∧ ∃ σ', AuthZReq plugin_library_ubuntu pull_ubuntu []
          = (Returns (mkResponse false (registries_message +:+ "library") ""),
             σ').
Proof.
  apply (scenario_B_is_denied sample_open "unix:///var/run/docker.sock"
           plugin_library_ubuntu []).
  reflexivity.
Defined.

Lemma AuthZReq_allow_iff_both_whitelisted_witness :
  ∃ resp σ',
    AuthZReq plugin_myregistry_app pull_myregistry_app [] = (Returns resp, σ')
    ∧ (Allow resp = true
       ↔ "myregistry" ∈ ["myregistry"] ∧ "/app:latest" ∈ ["/app:latest"])
    ∧ (Allow resp = false →
       ∃ keys, NoDup keys
               ∧ (∀ k, k ∈ keys ↔ k ∈ ["myregistry"])
               ∧ Msg resp = registries_message +:+ strings.Join keys ", ").
Proof.
  apply (AuthZReq_allow_iff_both_whitelisted
           (platform := reference sample_open)
           "unix:///var/run/docker.sock" ["myregistry"] ["/app:latest"]
           plugin_myregistry_app pull_myregistry_app pull_myregistry_app_url
           "myregistry" "/app:latest" []).
  - reflexivity.
  - discriminate.
  - discriminate.
  - vm_compute. reflexivity.
  - vm_compute. reflexivity.
Defined.

Lemma AuthZReq_empty_whitelist_denies_witness :
  ((∅ : gmap string bool) = ∅ →
   ∃ σ', AuthZReq plugin_no_flags pull_ubuntu []
         = (Returns (mkResponse false "No authorized registries configured" ""),
            σ'))
  ∧ ((∅ : gmap string bool) ≠ ∅ → (∅ : gmap string bool) = ∅ →
     ∃ σ', AuthZReq plugin_no_flags pull_ubuntu []
           = (Returns (mkResponse false "No authorized images configured" ""),
              σ')).
Proof.
  apply (AuthZReq_empty_whitelist_denies
           (platform := reference sample_open)
           "unix:///var/run/docker.sock" ∅ ∅
           plugin_no_flags pull_ubuntu pull_ubuntu_url "library" "" []).
  - reflexivity.
  - vm_compute. reflexivity.
  - vm_compute. reflexivity.
Defined.

Lemma processRequest_splits_at_first_slash_witness :
  processRequest plugin_myregistry_app pull_myregistry_app
    (Some pull_myregistry_app_url)
  = Returns ("myregistry", "/app:latest", true).
Proof.
  apply (processRequest_splits_at_first_slash
           (platform := reference sample_open)
           plugin_myregistry_app pull_myregistry_app pull_myregistry_app_url
           "myregistry" "app:latest").
  - vm_compute. reflexivity.
  - apply (bool_decide_unpack _). vm_compute. exact I.
Defined.

Lemma AuthZReq_other_paths_allowed_witness :
  ∃ σ', AuthZReq plugin_no_flags list_containers []
        = (Returns (mkResponse true "" ""), σ').
Proof.
  apply (AuthZReq_other_paths_allowed
           (platform := reference sample_open)
           plugin_no_flags list_containers list_containers_url []).
  - vm_compute. reflexivity.
  - intros Hends. apply strings_facts.HasSuffix_spec in Hends.
    vm_compute in Hends. discriminate Hends.
  - intros Hends. apply strings_facts.HasSuffix_spec in Hends.
    vm_compute in Hends. discriminate Hends.
Defined.

Lemma leading_slash_needs_empty_registry_witness :
  processRequest plugin_library_ubuntu pull_slash_app (Some pull_slash_app_url)
  = Returns ("", "/app", true)
  ∧ (reqURL_of (platform := reference sample_open) pull_slash_app
     = Some pull_slash_app_url →
     ∀ σ resp σ',
       AuthZReq plugin_library_ubuntu pull_slash_app σ = (Returns resp, σ') →
       Allow resp = true →
       authorizedRegistries plugin_library_ubuntu !! "" = Some true).
Proof.
  apply (leading_slash_needs_empty_registry
           (platform := reference sample_open)
           plugin_library_ubuntu pull_slash_app pull_slash_app_url "app").
  vm_compute. reflexivity.
Defined.

(** * Further properties of the plugin *)

(** ** More on strings *)

Module strings_more.
Import strings strings_facts.

Lemma app_assoc_s (a b c : string) : (a +:+ b) +:+ c = a +:+ (b +:+ c).
Proof.
  induction a as [|x a IH]; [done|]. by rewrite !app_cons, IH.
Qed.

Lemma drop_app_plus (pre t : string) (n : nat) :
  drop (String.length pre + n) (pre +:+ t) = drop n t.
Proof.
  induction pre as [|c pre IH]; [done|]. by rewrite app_cons.
Qed.

(** A string has no ['/'], or it is cut in a unique way in front of its
    first ['/']. *)
Lemma first_slash (s : string) :
  "/"%char ∉ bytes s
  ∨ ∃ pre post, s = pre +:+ String "/" post ∧ "/"%char ∉ bytes pre.
Proof.
  induction s as [|c s IH].
  - left. apply not_elem_of_nil.
  - destruct (decide (c = "/"%char)) as [->|Hc].
    + right. exists "", s. split; [done|]. apply not_elem_of_nil.
    + destruct IH as [Hno|(pre & post & -> & Hpre)].
      * left. simpl. by apply not_elem_of_cons.
      * right. exists (String c pre), post. split; [done|].
        simpl. by apply not_elem_of_cons.
Qed.

(** No string ends with both suffixes that [processRequest] tests. *)
Lemma suffixes_exclusive (s : string) :
  HasSuffix s "/containers/create" = true →
  HasSuffix s "/images/create" = false.
Proof.
  intros [pre ->]%HasSuffix_spec. unfold HasSuffix.
  apply andb_false_iff. right. rewrite len_app.
  replace (Z.to_nat (len pre + len "/containers/create" - len "/images/create"))
    with (String.length pre + 4)%nat by (unfold len; simpl; lia).
  by rewrite drop_app_plus.
Qed.

(** Every element of a list occurs in the joined string. *)
Lemma Join_mentions (keys : list string) (sep k : string) :
  k ∈ keys → ∃ pre post, Join keys sep = pre +:+ k +:+ post.
Proof.
  induction keys as [|e keys IH]; [by intros ?%elem_of_nil|].
  intros [->|Hin]%elem_of_cons.
  - destruct keys as [|e' keys].
    + exists "", "". by rewrite app_empty_r.
    + by exists "", (sep +:+ Join (e' :: keys) sep).
  - destruct (IH Hin) as (pre & post & Heq).
    destruct keys as [|e' keys]; [by apply elem_of_nil in Hin|].
    exists (e +:+ sep +:+ pre), post.
    change (Join (e :: e' :: keys) sep)
      with (e +:+ sep +:+ Join (e' :: keys) sep).
    by rewrite Heq, !app_assoc_s.
Qed.

End strings_more.

(** ** Shared facts on the classifier and the decision *)

Section more_facts.
Context {platform : Platform}.
Import strings strings_facts strings_more.

Implicit Types (plugin : ImgAuthZPlugin) (req : Request) (u : URL) (σ : Log).

(** The three ways [processRequest] ends on a URL. *)
Lemma processRequest_cases plugin req u :
  (imagePath_of req u = ""
   ∧ processRequest plugin req (Some u) = Returns ("", "", false))
  ∨ (imagePath_of req u ≠ "" ∧ ("/"%char ∉ bytes (imagePath_of req u))
     ∧ processRequest plugin req (Some u) = Returns ("library", "", true))
  ∨ (∃ pre post,
       imagePath_of req u = pre +:+ String "/" post ∧ ("/"%char ∉ bytes pre)
       ∧ processRequest plugin req (Some u)
         = Returns (pre, String "/" post, true)).
Proof.
  destruct (decide (imagePath_of req u = "")) as [Hempty|Hne].
  - left. split; [done|]. by apply processRequest_empty.
  - right. destruct (first_slash (imagePath_of req u))
      as [Hno|(pre & post & Hpath & Hpre)].
    + left. split; [done|]. split; [done|]. by apply processRequest_no_slash.
    + right. exists pre, post. split; [done|]. split; [done|].
      by apply processRequest_slash.
Qed.

(** [processRequest] does not look at the plugin. *)
Lemma processRequest_any_plugin plugin plugin' req (reqURL : option URL) :
  processRequest plugin req reqURL = processRequest plugin' req reqURL.
Proof. reflexivity. Qed.

(** The response to a classified request, for a plugin built from flags. *)
Lemma AuthZReq_table (host : string) (rs ims : list string)
    plugin req u (registry image : string) (flag : bool) σ :
  main.plugin host rs ims = (Some plugin, None) →
  reqURL_of req = Some u →
  processRequest plugin req (Some u) = Returns (registry, image, flag) →
  ∃ resp σ',
    AuthZReq plugin req σ = (Returns resp, σ')
    ∧ (Allow resp = true ↔ flag = false ∨ (registry ∈ rs ∧ image ∈ ims)).
Proof.
  intros Hplugin Hurl Hproc. unfold main.plugin in Hplugin.
  apply newPlugin_Some in Hplugin as (Hr & Hi & Hnr & Hni & Hstr).
  destruct flag.
  - destruct (decide (rs = [])) as [->|Hrs].
    { eexists _, _. split.
      - eapply AuthZReq_no_registries; [done..|].
        unfold hasAuthorizedRegistries. by rewrite Hnr.
      - simpl. split; [done|]. intros [?|[?%elem_of_nil _]]; done. }
    assert (hasAuthorizedRegistries plugin = true) as Hregs.
    { unfold hasAuthorizedRegistries. rewrite Hnr.
      by apply Z.ltb_lt, registries_nonempty. }
    destruct (decide (ims = [])) as [->|His].
    { eexists _, _. split.
      - eapply AuthZReq_no_images; [done..|].
        unfold hasAuthorizedImages. by rewrite Hni.
      - simpl. split; [done|]. intros [?|[_ ?%elem_of_nil]]; done. }
    assert (hasAuthorizedImages plugin = true) as Himgs.
    { unfold hasAuthorizedImages. rewrite Hni.
      by apply Z.ltb_lt, images_nonempty. }
    destruct (AuthZReq_checked _ _ _ _ _ σ Hurl Hproc Hregs Himgs) as [σ' Heq].
    eexists _, σ'. split; [exact Heq|]. rewrite Hr, Hi.
    rewrite <- (registries_member rs registry), <- (images_member ims image).
    destruct (default false (main.registries rs !! registry));
      destruct (default false (main.images ims !! image)); simpl;
      intuition congruence.
  - eexists _, _. split; [by eapply AuthZReq_not_registry|].
    simpl. split; auto.
Qed.

(** With a URL, [AuthZReq] returns, and writes one line that ends with the
    method and the URL. *)
Lemma AuthZReq_log plugin req u σ :
  reqURL_of req = Some u →
  ∃ resp tag,
    AuthZReq plugin req σ
    = (Returns resp, σ ++ [tag ++ [LogString (RequestMethod req); LogURL u]]).
Proof.
  intros Hurl.
  destruct (processRequest_total plugin req u)
    as (registry & image & flag & Hproc).
  unfold AuthZReq, reqURL_of in *.
  destruct (QueryUnescape _) as [reqURI ?]; simpl in Hurl.
  destruct (ParseRequestURI _) as [reqURL ?]; simpl in Hurl; subst reqURL.
  unfold mbind, Go_bind, lift. rewrite Hproc.
  destruct flag; simpl.
  - destruct (hasAuthorizedRegistries plugin); simpl.
    + destruct (hasAuthorizedImages plugin); simpl.
      * destruct (default false (authorizedRegistries plugin !! registry)
                  && default false (authorizedImages plugin !! image)); simpl.
        -- by eexists _, [_].
        -- by eexists _, [_; _].
      * by eexists _, [_].
    + by eexists _, [_].
  - by eexists _, [_].
Qed.

(** The three shapes of a response. *)
Lemma AuthZReq_response plugin req σ resp σ' :
  AuthZReq plugin req σ = (Returns resp, σ') →
  resp = mkResponse true "" ""
  ∨ resp = mkResponse false "No authorized registries configured" ""
  ∨ resp = mkResponse false "No authorized images configured" ""
  ∨ resp = mkResponse false
             (registries_message +:+ authRegistriesAsString plugin) "".
Proof.
  intros Hrun. destruct (reqURL_of req) as [u|] eqn:Hurl.
  - destruct (processRequest_total plugin req u)
      as (registry & image & [] & Hproc).
    + destruct (hasAuthorizedRegistries plugin) eqn:Hregs.
      * destruct (hasAuthorizedImages plugin) eqn:Himgs.
        -- destruct (AuthZReq_checked _ _ _ _ _ σ Hurl Hproc Hregs Himgs)
             as [σ'' Heq].
           rewrite Heq in Hrun. injection Hrun as <- _.
           destruct (_ && _); auto.
        -- rewrite (AuthZReq_no_images _ _ _ _ _ _ Hurl Hproc Hregs Himgs)
             in Hrun. injection Hrun as <- _. auto.
      * rewrite (AuthZReq_no_registries _ _ _ _ _ _ Hurl Hproc Hregs) in Hrun.
        injection Hrun as <- _. auto.
    + rewrite (AuthZReq_not_registry _ _ _ _ _ _ Hurl Hproc) in Hrun.
      injection Hrun as <- _. auto.
  - by rewrite AuthZReq_nil in Hrun.
Qed.

End more_facts.

(** ** Further theorems *)

Section further.
Context {platform : Platform}.
Import strings strings_facts strings_more.

Implicit Types (plugin : ImgAuthZPlugin) (req : Request) (u : URL) (σ : Log).

(** X1: [AuthZReq] panics, with the log untouched, exactly when [reqURL] is
    nil; otherwise it returns a response and appends one line to the log, a
    line that ends with the request method and the URL. *)
Theorem AuthZReq_returns_or_panics plugin req σ :
  match reqURL_of req with
  | None => AuthZReq plugin req σ = (Panics nil_dereference, σ)
  | Some u =>
      ∃ resp tag,
        AuthZReq plugin req σ
        = (Returns resp,
           σ ++ [tag ++ [LogString (RequestMethod req); LogURL u]])
  end.
Proof.
  destruct (reqURL_of req) as [u|] eqn:Hurl.
  - by apply AuthZReq_log.
  - by apply AuthZReq_nil.
Qed.

(** X2: on a URL, [processRequest] returns (no slice is out of range); the
    flag is [true] exactly when the candidate image path is not empty; with
    the flag [false] registry and image are empty; the registry never holds a
    ['/']; and the image is empty, or it starts with ['/'] and registry
    followed by image is the candidate path. *)
Theorem processRequest_shape plugin req u :
  ∃ registry image flag,
    processRequest plugin req (Some u) = Returns (registry, image, flag)
    ∧ (flag = true ↔ imagePath_of req u ≠ "")
    ∧ (flag = false → registry = "" ∧ image = "")
    ∧ ("/"%char ∉ bytes registry)
    ∧ (image = ""
       ∨ (∃ rest, image = String "/" rest)
         ∧ registry +:+ image = imagePath_of req u).
Proof.
  destruct (processRequest_cases plugin req u)
    as [[Hpath Hproc]|[(Hne & Hno & Hproc)|(pre & post & Hpath & Hpre & Hproc)]];
    eexists _, _, _; (split; [exact Hproc|]).
  - rewrite Hpath. repeat split; try done. apply not_elem_of_nil. by left.
  - repeat split; try done.
    + apply (bool_decide_unpack _). vm_compute. exact I.
    + by left.
  - rewrite Hpath. repeat split; try done.
    + intros _. destruct pre; by rewrite ?app_cons.
    + right. split; [by eexists|done].
Qed.

(** X3: when the path ends with "/containers/create", the candidate image
    path is the [Image] field that [json.Unmarshal] leaves in a zero
    [Config]; the query of the URL plays no part. *)
Theorem create_candidate_from_body req u :
  (∃ pre, Path u = pre +:+ "/containers/create") →
  imagePath_of req u
  = Image (json_Unmarshal (RequestBody req) (mkConfig "")).1.
Proof.
  intros Hcreate%HasSuffix_spec. unfold imagePath_of.
  rewrite Hcreate, (suffixes_exclusive _ Hcreate).
  by destruct (json_Unmarshal _ _).
Qed.

(** X4: a request with a URL and an empty candidate image path (a create
    whose body gives no image, a pull without [fromImage]) is allowed by
    every plugin, whatever its whitelists hold. *)
Theorem empty_candidate_allowed plugin req u σ :
  reqURL_of req = Some u →
  imagePath_of req u = "" →
  ∃ σ', AuthZReq plugin req σ = (Returns (mkResponse true "" ""), σ').
Proof.
  intros Hurl Hpath. eexists. eapply AuthZReq_not_registry; [done|].
  by apply processRequest_empty.
Qed.

(** X5: for a plugin built from the flags and a request classified as
    (registry, image, flag), the response allows exactly when the flag is
    [false], or the registry is among the registry flags and the image among
    the image flags. *)
Theorem AuthZReq_decision_table (host : string) (rs ims : list string)
    plugin req u (registry image : string) (flag : bool) σ :
  main.plugin host rs ims = (Some plugin, None) →
  reqURL_of req = Some u →
  processRequest plugin req (Some u) = Returns (registry, image, flag) →
  ∃ resp σ',
    AuthZReq plugin req σ = (Returns resp, σ')
    ∧ (Allow resp = true ↔ flag = false ∨ (registry ∈ rs ∧ image ∈ ims)).
Proof. apply AuthZReq_table. Qed.

(** X6: the request method plays no part in the decision: two requests with
    the same URI and body get the same outcome. *)
Theorem AuthZReq_ignores_method plugin (m1 m2 uri body : string) σ1 σ2 :
  (AuthZReq plugin (mkRequest m1 uri body) σ1).1
  = (AuthZReq plugin (mkRequest m2 uri body) σ2).1.
Proof.
  set (req1 := mkRequest m1 uri body). set (req2 := mkRequest m2 uri body).
  assert (reqURL_of req2 = reqURL_of req1) as Hsame by reflexivity.
  destruct (reqURL_of req1) as [u|] eqn:Hurl1.
  - destruct (processRequest_total plugin req1 u)
      as (registry & image & flag & Hproc1).
    assert (processRequest plugin req2 (Some u)
            = Returns (registry, image, flag)) as Hproc2 by exact Hproc1.
    destruct flag.
    + destruct (hasAuthorizedRegistries plugin) eqn:Hregs.
      * destruct (hasAuthorizedImages plugin) eqn:Himgs.
        -- destruct (AuthZReq_checked _ _ _ _ _ σ1 Hurl1 Hproc1 Hregs Himgs)
             as [σ1' ->].
           destruct (AuthZReq_checked _ _ _ _ _ σ2 Hsame Hproc2 Hregs Himgs)
             as [σ2' ->].
           done.
        -- by rewrite
             (AuthZReq_no_images _ _ _ _ _ σ1 Hurl1 Hproc1 Hregs Himgs),
             (AuthZReq_no_images _ _ _ _ _ σ2 Hsame Hproc2 Hregs Himgs).
      * by rewrite (AuthZReq_no_registries _ _ _ _ _ σ1 Hurl1 Hproc1 Hregs),
             (AuthZReq_no_registries _ _ _ _ _ σ2 Hsame Hproc2 Hregs).
    + by rewrite (AuthZReq_not_registry _ _ _ _ _ σ1 Hurl1 Hproc1),
           (AuthZReq_not_registry _ _ _ _ _ σ2 Hsame Hproc2).
  - by rewrite (AuthZReq_nil _ _ σ1 Hurl1), (AuthZReq_nil _ _ σ2 Hsame).
Qed.

(** X7: widening the whitelists never revokes: a request allowed by the
    plugin of some flags is allowed by the plugin of any larger lists of
    flags. *)
Theorem widening_keeps_allow (host1 host2 : string)
    (rs1 ims1 rs2 ims2 : list string) plugin1 plugin2 req σ1 σ2 resp1 σ1' :
  main.plugin host1 rs1 ims1 = (Some plugin1, None) →
  main.plugin host2 rs2 ims2 = (Some plugin2, None) →
  rs1 ⊆ rs2 →
  ims1 ⊆ ims2 →
  AuthZReq plugin1 req σ1 = (Returns resp1, σ1') →
  Allow resp1 = true →
  ∃ resp2 σ2',
    AuthZReq plugin2 req σ2 = (Returns resp2, σ2') ∧ Allow resp2 = true.
Proof.
  intros Hp1 Hp2 Hrs Hims Hrun Hallow.
  destruct (reqURL_of req) as [u|] eqn:Hurl;
    [|by rewrite AuthZReq_nil in Hrun].
  destruct (processRequest_total plugin1 req u)
    as (registry & image & flag & Hproc).
  destruct (AuthZReq_table _ _ _ _ _ _ _ _ _ σ1 Hp1 Hurl Hproc)
    as (resp & σ' & Heq & Hiff).
  rewrite Heq in Hrun. injection Hrun as -> _.
  assert (processRequest plugin2 req (Some u)
          = Returns (registry, image, flag)) as Hproc2.
  { by rewrite (processRequest_any_plugin plugin2 plugin1). }
  destruct (AuthZReq_table _ _ _ _ _ _ _ _ _ σ2 Hp2 Hurl Hproc2)
    as (resp2 & σ2' & Heq2 & Hiff2).
  exists resp2, σ2'. split; [done|]. apply Hiff2.
  destruct (proj1 Hiff Hallow) as [?|[? ?]]; [by left|right]. split; auto.
Qed.

(** X8: an image flag can only match if it is empty or starts with ['/']:
    for a plugin none of whose image flags is of that form, every request
    with a non-empty candidate image path is denied. *)
Theorem image_flags_need_leading_slash (host : string) (rs ims : list string)
    plugin req u σ :
  main.plugin host rs ims = (Some plugin, None) →
  (∀ i, i ∈ ims → i ≠ "" ∧ ¬ ∃ rest, i = String "/" rest) →
  reqURL_of req = Some u →
  imagePath_of req u ≠ "" →
  ∃ resp σ', AuthZReq plugin req σ = (Returns resp, σ') ∧ Allow resp = false.
Proof.
  intros Hplugin Hflags Hurl Hne.
  destruct (processRequest_cases plugin req u)
    as [[Hpath _]|[(_ & _ & Hproc)|(pre & post & _ & _ & Hproc)]]; [done|..];
    destruct (AuthZReq_table _ _ _ _ _ _ _ _ _ σ Hplugin Hurl Hproc)
      as (resp & σ' & Heq & Hiff);
    exists resp, σ'; (split; [done|]);
    destruct (Allow resp); [|done| |done];
    destruct (proj1 Hiff eq_refl) as [?|[_ Hin]]; try done;
    destruct (Hflags _ Hin) as [Hi Hslash]; [done|].
  destruct Hslash. by eexists.
Qed.

(** X9: a registry flag that holds a ['/'] never matches: for a plugin all
    of whose registry flags hold one, every request with a non-empty
    candidate image path is denied. *)
Theorem registry_flags_with_slash_never_match (host : string)
    (rs ims : list string) plugin req u σ :
  main.plugin host rs ims = (Some plugin, None) →
  (∀ r, r ∈ rs → "/"%char ∈ bytes r) →
  reqURL_of req = Some u →
  imagePath_of req u ≠ "" →
  ∃ resp σ', AuthZReq plugin req σ = (Returns resp, σ') ∧ Allow resp = false.
Proof.
  intros Hplugin Hflags Hurl Hne.
  destruct (processRequest_cases plugin req u)
    as [[Hpath _]|[(_ & _ & Hproc)|(pre & post & _ & Hpre & Hproc)]]; [done|..];
    destruct (AuthZReq_table _ _ _ _ _ _ _ _ _ σ Hplugin Hurl Hproc)
      as (resp & σ' & Heq & Hiff);
    exists resp, σ'; (split; [done|]);
    destruct (Allow resp); [|done| |done];
    destruct (proj1 Hiff eq_refl) as [?|[Hin _]]; try done;
    apply Hflags in Hin.
  - revert Hin. apply (bool_decide_unpack _). vm_compute. exact I.
  - done.
Qed.

End further.

(** ** The whitelists, the constructor and the responses *)

Section construction.
Context {platform : Platform}.
Import strings strings_facts strings_more.

Implicit Types (plugin : ImgAuthZPlugin) (req : Request) (u : URL) (σ : Log).

(** X10: the map that [main] builds from the flags is the set of the flags:
    a key is bound, and then to [true], exactly when it is a flag; order and
    repetition of the flags do not matter; without repetition the size of
    the map is the number of flags.  The loop over the image flags builds
    the same map. *)
Theorem main_registries_is_set (flags : list string) :
  (∀ k, main.registries flags !! k = Some true ↔ k ∈ flags)
  ∧ (∀ k, main.registries flags !! k ≠ Some false)
  ∧ dom (main.registries flags) = list_to_set flags
  ∧ (∀ flags', (∀ k, k ∈ flags ↔ k ∈ flags') →
               main.registries flags' = main.registries flags)
  ∧ (NoDup flags → map_len (main.registries flags) = Z.of_nat (length flags))
  ∧ main.images flags = main.registries flags.
Proof.
  assert (dom (main.registries flags) = list_to_set flags) as Hdom.
  { apply set_eq. intros k.
    rewrite elem_of_dom, elem_of_list_to_set, registries_lookup.
    case_decide; split; intros H'; try done; by destruct H'. }
  split; [|split; [|split; [done|split; [|split; [|done]]]]].
  - intros k. rewrite registries_lookup. by case_decide.
  - intros k. rewrite registries_lookup. by case_decide.
  - intros flags' Hsame. apply map_eq. intros k.
    rewrite !registries_lookup. specialize (Hsame k).
    repeat case_decide; tauto.
  - intros Hnodup. unfold map_len.
    by rewrite <- size_dom, Hdom, size_list_to_set.
Qed.

(** X11: in the plugin that [newPlugin] returns, the cached counts agree
    with the maps: [hasAuthorizedRegistries] holds exactly when the map of
    registries is not empty, and [hasAuthorizedImages] exactly when the map
    of images is not empty; the maps are the ones given. *)
Theorem newPlugin_consistent (host : string) (regs imgs : gmap string bool)
    plugin :
  newPlugin host regs imgs = (Some plugin, None) →
  (hasAuthorizedRegistries plugin = true ↔ authorizedRegistries plugin ≠ ∅)
  ∧ (hasAuthorizedImages plugin = true ↔ authorizedImages plugin ≠ ∅)
  ∧ authorizedRegistries plugin = regs
  ∧ authorizedImages plugin = imgs.
Proof.
  intros (Hr & Hi & Hnr & Hni & _)%newPlugin_Some.
  unfold hasAuthorizedRegistries, hasAuthorizedImages.
  rewrite Hr, Hi, Hnr, Hni, !Z.ltb_lt, <- !map_size_non_empty_iff.
  repeat split; try done; lia.
Qed.

(** X12: every key of the map, whatever it is bound to, occurs in the
    string that [authRegistries] returns (and so does every key of the
    other map in [authImages]); on the empty map both return the empty
    string. *)
Theorem authRegistries_mentions_every_key (m : gmap string bool) (k : string) :
  is_Some (m !! k) →
  (∃ pre post, authRegistries m = pre +:+ k +:+ post)
  ∧ (∃ pre post, authImages m = pre +:+ k +:+ post)
  ∧ authRegistries ∅ = ""
  ∧ authImages ∅ = "".
Proof.
  intros [v Hk].
  assert (k ∈ range_keys m) as Hin.
  { rewrite (range_keys_perm m), list_elem_of_fmap. exists (k, v).
    split; [done|]. by apply elem_of_map_to_list. }
  assert (collect_keys ∅ = []) as Hnil.
  { rewrite collect_keys_eq. apply Permutation_nil_r.
    by rewrite (range_keys_perm ∅), map_to_list_empty. }
  unfold authRegistries, authImages. rewrite Hnil, collect_keys_eq.
  repeat split; try done; by apply Join_mentions.
Qed.

(** X13: a response of [AuthZReq] never sets [Err]; it carries no message
    when it allows, and a non-empty message when it denies. *)
Theorem response_shape plugin req σ resp σ' :
  AuthZReq plugin req σ = (Returns resp, σ') →
  Err resp = ""
  ∧ (Allow resp = true → Msg resp = "")
  ∧ (Allow resp = false → Msg resp ≠ "").
Proof.
  intros Hrun. apply AuthZReq_response in Hrun.
  destruct Hrun as [-> | [-> | [-> | ->]]]; simpl; repeat split; done.
Qed.

End construction.

(** ** Instances of the further theorems *)

Lemma create_candidate_from_body_witness :
  imagePath_of (platform := reference sample_open)
    create_container create_container_url
  = Image (json_Unmarshal (Platform := reference sample_open)
             (RequestBody create_container) (mkConfig "")).1.
Proof.
  apply (create_candidate_from_body (platform := reference sample_open)
           create_container create_container_url).
  by exists "/v1.40".
Defined.

Lemma empty_candidate_allowed_witness :
  ∃ σ', AuthZReq plugin_no_flags create_container []
        = (Returns (mkResponse true "" ""), σ').
Proof.
  apply (empty_candidate_allowed (platform := reference sample_open)
           plugin_no_flags create_container create_container_url []).
  - vm_compute. reflexivity.
  - vm_compute. reflexivity.
Defined.

Lemma AuthZReq_decision_table_witness :
  ∃ resp σ',
    AuthZReq (sample_plugin ["myregistry"] ["/app:latest"])
      pull_myregistry_app [] = (Returns resp, σ')
    ∧ (Allow resp = true
       ↔ true = false
         ∨ ("myregistry" ∈ ["myregistry"] ∧ "/app:latest" ∈ ["/app:latest"])).
Proof.
  apply (AuthZReq_decision_table (platform := reference sample_open)
           "unix:///var/run/docker.sock" ["myregistry"] ["/app:latest"]
           (sample_plugin ["myregistry"] ["/app:latest"])
           pull_myregistry_app pull_myregistry_app_url
           "myregistry" "/app:latest" true []).
  - reflexivity.
  - vm_compute. reflexivity.
  - vm_compute. reflexivity.
Defined.

Lemma widening_keeps_allow_witness :
  ∃ resp2 σ2',
    AuthZReq (sample_plugin ["library"; "myregistry"] ["ubuntu"; "/app:latest"])
      pull_myregistry_app [] = (Returns resp2, σ2')
    ∧ Allow resp2 = true.
Proof.
  eapply (widening_keeps_allow (platform := reference sample_open)
            "unix:///var/run/docker.sock" "unix:///var/run/docker.sock"
            ["myregistry"] ["/app:latest"]
            ["library"; "myregistry"] ["ubuntu"; "/app:latest"]
            (sample_plugin ["myregistry"] ["/app:latest"])
            (sample_plugin ["library"; "myregistry"] ["ubuntu"; "/app:latest"])
            pull_myregistry_app [] []).
  - reflexivity.
  - reflexivity.
  - intros x Hx. apply list_elem_of_singleton in Hx as ->.
    apply list_elem_of_further, list_elem_of_here.
  - intros x Hx. apply list_elem_of_singleton in Hx as ->.
    apply list_elem_of_further, list_elem_of_here.
  - vm_compute. reflexivity.
  - reflexivity.
Defined.

Lemma image_flags_need_leading_slash_witness :
  ∃ resp σ',
    AuthZReq (sample_plugin ["library"] ["ubuntu"]) pull_ubuntu []
    = (Returns resp, σ')
    ∧ Allow resp = false.
Proof.
  apply (image_flags_need_leading_slash (platform := reference sample_open)
           "unix:///var/run/docker.sock" ["library"] ["ubuntu"]
           (sample_plugin ["library"] ["ubuntu"]) pull_ubuntu pull_ubuntu_url []).
  - reflexivity.
  - intros i Hi. apply list_elem_of_singleton in Hi as ->.
    split; [discriminate|]. intros [rest Hrest]. discriminate Hrest.
  - vm_compute. reflexivity.
  - vm_compute. discriminate.
Defined.

Lemma registry_flags_with_slash_never_match_witness :
  ∃ resp σ',
    AuthZReq (sample_plugin ["docker.io/myregistry"] ["/app:latest"])
      pull_myregistry_app []
    = (Returns resp, σ')
    ∧ Allow resp = false.
Proof.
  apply (registry_flags_with_slash_never_match
           (platform := reference sample_open)
           "unix:///var/run/docker.sock"
           ["docker.io/myregistry"] ["/app:latest"]
           (sample_plugin ["docker.io/myregistry"] ["/app:latest"])
           pull_myregistry_app pull_myregistry_app_url []).
  - reflexivity.
  - intros r Hr. apply list_elem_of_singleton in Hr as ->.
    apply (bool_decide_unpack _). vm_compute. exact I.
  - vm_compute. reflexivity.
  - vm_compute. discriminate.
Defined.

Lemma newPlugin_consistent_witness :
  (hasAuthorizedRegistries (sample_plugin ["library"] []) = true
   ↔ authorizedRegistries (sample_plugin ["library"] []) ≠ ∅)
  ∧ (hasAuthorizedImages (sample_plugin ["library"] []) = true
     ↔ authorizedImages (sample_plugin ["library"] []) ≠ ∅)
  ∧ authorizedRegistries (sample_plugin ["library"] [])
    = main.registries ["library"]
  ∧ authorizedImages (sample_plugin ["library"] []) = main.images [].
Proof.
  apply (newPlugin_consistent (platform := reference sample_open)
           "unix:///var/run/docker.sock"
           (main.registries ["library"]) (main.images [])
           (sample_plugin ["library"] [])).
  reflexivity.
Defined.

Lemma authRegistries_mentions_every_key_witness :
  (∃ pre post,
     authRegistries (platform := reference sample_open)
       (main.registries ["library"; "quay.io"])
     = pre +:+ "quay.io" +:+ post)
  ∧ (∃ pre post,
       authImages (platform := reference sample_open)
         (main.registries ["library"; "quay.io"])
       = pre +:+ "quay.io" +:+ post)
  ∧ authRegistries (platform := reference sample_open) ∅ = ""
  ∧ authImages (platform := reference sample_open) ∅ = "".
Proof.
  apply (authRegistries_mentions_every_key (platform := reference sample_open)
           (main.registries ["library"; "quay.io"]) "quay.io").
  exists true. vm_compute. reflexivity.
Defined.

Lemma response_shape_witness :
  Err (mkResponse false (registries_message +:+ "library") "") = ""
  ∧ (Allow (mkResponse false (registries_message +:+ "library") "") = true →
     Msg (mkResponse false (registries_message +:+ "library") "") = "")
  ∧ (Allow (mkResponse false (registries_message +:+ "library") "") = false →
     Msg (mkResponse false (registries_message +:+ "library") "") ≠ "").
Proof.
  eapply (response_shape (platform := reference sample_open)
            (sample_plugin ["library"] ["ubuntu"]) pull_ubuntu []).
  vm_compute. reflexivity.
Defined.
